(** * Feedback submission service (app.py)

    A shallow embedding of the Flask application in [app.py]: the
    transaction wrapper [get_db], the start-up migration [init_db] and the
    handlers [health], [submit], [stats] and [list_submissions].

    The handlers are written in a small state-and-exception monad [M] over a
    [world] that holds the database, the open transaction, the record of the
    calls made to the database driver, the application log, and the failures
    the environment is going to inject.  The database engine is modelled as
    far as the SQL text of [app.py] needs: one table [feedback] with a serial
    primary key and a unique [userId], transactions with commit and
    rollback, and the five statements the program issues. *)

From Stdlib Require Import ZArith List String Ascii Bool Lia.
From Stdlib Require Import QArith_base.
From Stdlib Require Import Sorting.Sorted.
Import ListNotations.

Open Scope string_scope.
Open Scope list_scope.
Open Scope Z_scope.

(** ** Python values decoded from JSON *)

(** What [request.get_json()] can return and what [jsonify] serialises:
    [None], [bool], [int], [float], [str], [list] and [dict].  A [dict] is an
    association list searched from the front. *)
#[local] Unset Elimination Schemes.
Inductive json : Type :=
| JNull
| JBool (b : bool)
| JInt (z : Z)
| JFloat (q : Q)
| JStr (s : string)
| JArr (l : list json)
| JObj (l : list (string * json)).
#[local] Set Elimination Schemes.

(** Python truth value, as tested by [not user_id] and [not username]. *)
Definition truthy (v : json) : bool :=
  match v with
  | JNull => false
  | JBool b => b
  | JInt z => negb (z =? 0)
  | JFloat q => negb (Qnum q =? 0)
  | JStr s => negb (String.eqb s "")
  | JArr l => match l with [] => false | _ :: _ => true end
  | JObj l => match l with [] => false | _ :: _ => true end
  end.

Fixpoint assoc (k : string) (l : list (string * json)) : option json :=
  match l with
  | [] => None
  | (k', v) :: t => if String.eqb k k' then Some v else assoc k t
  end.

(** ** Exceptions *)

(** The two constraints of the table that can be violated by an insert. *)
Inductive constraint : Type :=
| feedback_pkey
| feedback_userid_key.

(** Every exception class other than [psycopg2.IntegrityError]: the rest of
    the DB-API hierarchy, and the built-in and framework exceptions that
    occur in the handlers.  All of them derive from [Exception]. *)
Inductive error_class : Type :=
| OperationalError
| ProgrammingError
| DataError
| InterfaceError
| InternalError
| NotSupportedError
| AttributeError
| TypeError
| KeyError
| ValueError
| BadRequest.

Inductive exception : Type :=
| IntegrityError (c : constraint)
| Exc (k : error_class).

(** ** The database *)

Record row : Type := mkRow { id : Z; username : string; userId : Z }.

(** The schema objects [init_db] creates: the table [feedback] ([None] while
    the relation does not exist) and the index [idx_userId]. *)
Record database : Type := mkDb {
  feedback : option (list row);
  idx_userId : bool
}.

(** The statements of [app.py]. *)
Inductive sql : Type :=
| CreateTableFeedback
| CreateIndexUserId
| InsertFeedback (username_arg user_id_arg : json)
| SelectCount
| SelectRecent.

Inductive call : Type :=
| Connect (dsn : option string)
| Execute (q : sql)
| Commit
| Rollback
| Close.

(** The f-strings passed to [logger]. *)
Inductive message : Type :=
| InitOk
| InitFailed (e : exception)
| InvalidSecret (ip : string)
| JsonParseError (e : exception)
| NewSubmission (user_id username_v : json)
| DuplicateIgnored (user_id : json)
| DatabaseError (e : exception)
| StatsError (e : exception)
| ListError (e : exception).

Inductive log_entry : Type :=
| LogInfo (m : message)
| LogWarning (m : message)
| LogError (m : message).

(** [committed] is the durable database, [session] the view of the open
    transaction ([None] when no connection is open), [id_seq] the next value
    of the serial column's sequence (a sequence is not rolled back),
    [calls] the driver calls made so far, oldest first, and [faults] the
    failures of the environment: each call of [connect], [execute] and
    [commit] takes the head of the list and fails with it when it is
    [Some k]. *)
Record world : Type := mkWorld {
  committed : database;
  id_seq : Z;
  session : option database;
  calls : list call;
  log : list log_entry;
  faults : list (option error_class)
}.

(** ** The monad of handlers: state that survives a raised exception *)

Inductive result (A : Type) : Type :=
| Return (a : A)
| Raise (e : exception).
Arguments Return {A} a.
Arguments Raise {A} e.

Definition M (A : Type) : Type := world -> result A * world.

Definition ret {A} (a : A) : M A := fun w => (Return a, w).

Definition raise {A} (e : exception) : M A := fun w => (Raise e, w).

Definition bind {A B} (m : M A) (k : A -> M B) : M B :=
  fun w => match m w with
           | (Return a, w') => k a w'
           | (Raise e, w') => (Raise e, w')
           end.

(** [try: m except Exception as e: h e] *)
Definition try_except {A} (m : M A) (h : exception -> M A) : M A :=
  fun w => match m w with
           | (Return a, w') => (Return a, w')
           | (Raise e, w') => h e w'
           end.

(** [try: m finally: f]; an exception of [f] replaces the outcome of [m]. *)
Definition try_finally {A} (m : M A) (f : M unit) : M A :=
  fun w => match m w with
           | (r, w') => match f w' with
                        | (Return _, w'') => (r, w'')
                        | (Raise e, w'') => (Raise e, w'')
                        end
           end.

Declare Scope monad_scope.
Delimit Scope monad_scope with monad.
Notation "x <- m ;; k" := (bind m (fun x => k))
  (at level 61, m at next level, right associativity) : monad_scope.
Notation "m ;; k" := (bind m (fun _ => k))
  (at level 61, right associativity) : monad_scope.
Open Scope monad_scope.

Definition modify (f : world -> world) : M unit := fun w => (Return tt, f w).

Definition record_call (c : call) : M unit :=
  modify (fun w => mkWorld (committed w) (id_seq w) (session w)
                           (calls w ++ [c]) (log w) (faults w)).

Definition logger (l : log_entry) : M unit :=
  modify (fun w => mkWorld (committed w) (id_seq w) (session w)
                           (calls w) (log w ++ [l]) (faults w)).

Definition set_session (s : option database) : M unit :=
  modify (fun w => mkWorld (committed w) (id_seq w) s
                           (calls w) (log w) (faults w)).

Definition set_faults (fs : list (option error_class)) (w : world) : world :=
  mkWorld (committed w) (id_seq w) (session w) (calls w) (log w) fs.

(** The environment's turn: the next planned failure, if any, is raised. *)
Definition next_fault : M unit :=
  fun w => match faults w with
           | [] => (Return tt, w)
           | None :: fs => (Return tt, set_faults fs w)
           | Some k :: fs => (Raise (Exc k), set_faults fs w)
           end.

(** ** The engine: meaning of the five statements *)

(** Conversion of a Python parameter to the column's type, by the driver's
    adaptation and the engine's assignment cast.  It is a parameter of the
    development: nothing is assumed about which values it accepts. *)
Record conversion : Type := mkConversion {
  to_text : json -> error_class + string;
  to_bigint : json -> error_class + Z
}.

(** The conversion that accepts exactly a [str] for [TEXT] and an [int] for
    [BIGINT]; used for the concrete runs. *)
Definition typed_conversion : conversion :=
  mkConversion
    (fun v => match v with JStr s => inr s | _ => inl ProgrammingError end)
    (fun v => match v with JInt z => inr z | _ => inl ProgrammingError end).

Definition in_bigint (z : Z) : bool :=
  (-9223372036854775808 <=? z) && (z <=? 9223372036854775807).

(** Identifiers that are not double-quoted are folded to lower case by the
    engine; [app.py] quotes none of its identifiers. *)
Definition fold_char (c : ascii) : ascii :=
  let n := nat_of_ascii c in
  if ((65 <=? n) && (n <=? 90))%nat then ascii_of_nat (n + 32) else c.

Fixpoint fold_ident (s : string) : string :=
  match s with
  | EmptyString => EmptyString
  | String c t => String (fold_char c) (fold_ident t)
  end.

(** A row of a result set as [RealDictCursor] returns it: column label to
    value. *)
Definition record : Type := list (string * json).

(** [ORDER BY id DESC] *)
Fixpoint insert_desc (r : row) (l : list row) : list row :=
  match l with
  | [] => [r]
  | x :: t => if id x <=? id r then r :: l else x :: insert_desc r t
  end.

Definition order_by_id_desc (l : list row) : list row :=
  fold_right insert_desc [] l.

(** [SELECT id, username, userId FROM feedback] *)
Definition select_row (r : row) : record :=
  [ (fold_ident "id", JInt (id r));
    (fold_ident "username", JStr (username r));
    (fold_ident "userId", JInt (userId r)) ].

Definition has_id (i : Z) (rows : list row) : bool :=
  existsb (fun r => id r =? i) rows.

Definition has_userId (u : Z) (rows : list row) : bool :=
  existsb (fun r => userId r =? u) rows.

(** One statement inside the open transaction [db], with the sequence at
    [seq]: the outcome, the transaction's new view and the new sequence
    value. *)
Definition run_sql (cv : conversion) (q : sql) (db : database) (seq : Z)
  : result (list record) * database * Z :=
  match q with
  | CreateTableFeedback =>
      match feedback db with
      | Some _ => (Return [], db, seq)
      | None => (Return [], mkDb (Some []) (idx_userId db), 1)
      end
  | CreateIndexUserId =>
      match feedback db with
      | Some _ => (Return [], mkDb (feedback db) true, seq)
      | None => (Raise (Exc ProgrammingError), db, seq)
      end
  | InsertFeedback un uid =>
      match to_text cv un with
      | inl k => (Raise (Exc k), db, seq)
      | inr name =>
          match to_bigint cv uid with
          | inl k => (Raise (Exc k), db, seq)
          | inr u =>
              if negb (in_bigint u) then (Raise (Exc DataError), db, seq)
              else
                match feedback db with
                | None => (Raise (Exc ProgrammingError), db, seq)
                | Some rows =>
                    if has_id seq rows
                    then (Raise (IntegrityError feedback_pkey), db, seq + 1)
                    else if has_userId u rows
                    then (Raise (IntegrityError feedback_userid_key), db, seq + 1)
                    else (Return [],
                          mkDb (Some (rows ++ [mkRow seq name u])) (idx_userId db),
                          seq + 1)
                end
          end
      end
  | SelectCount =>
      match feedback db with
      | None => (Raise (Exc ProgrammingError), db, seq)
      | Some rows =>
          (Return [[(fold_ident "total", JInt (Z.of_nat (List.length rows)))]], db, seq)
      end
  | SelectRecent =>
      match feedback db with
      | None => (Raise (Exc ProgrammingError), db, seq)
      | Some rows =>
          (Return (map select_row (firstn 100 (order_by_id_desc rows))), db, seq)
      end
  end.

(** ** Requests and responses *)

Record request : Type := mkRequest {
  x_api_secret : option string;   (* request.headers.get('X-API-Secret') *)
  is_json : bool;                 (* request.is_json *)
  json_body : option json;        (* request.get_json(); None: it raises *)
  remote_addr : string
}.

(** [jsonify(body), status] *)
Definition response : Type := (json * Z)%type.

(** ** Invariants of the database *)

(** The constraints of [feedback] as [init_db] declares them: [userId] is
    unique and fits [BIGINT], [id] is a key, and every [id] was drawn from the
    sequence. *)
Definition table_ok (seq : Z) (rows : list row) : Prop :=
  NoDup (map userId rows) /\
  NoDup (map id rows) /\
  Forall (fun r => id r < seq /\ in_bigint (userId r) = true) rows.

Definition db_ok (seq : Z) (db : database) : Prop :=
  match feedback db with
  | None => True
  | Some rows => table_ok seq rows
  end.

(** The invariant of every world, also in the middle of a transaction. *)
Definition inv (w : world) : Prop :=
  db_ok (id_seq w) (committed w) /\
  match session w with
  | None => True
  | Some s => db_ok (id_seq w) s /\
              (feedback s = None -> feedback (committed w) = None)
  end.

(** No connection is open: the state between two requests. *)
Definition closed (w : world) : Prop := session w = None.

Definition consistent (w : world) : Prop := inv w /\ closed w.

Definition preserves {A} (P : world -> Prop) (m : M A) : Prop :=
  forall w, P w -> P (snd (m w)).



(** ** Concrete data for the examples *)

Definition demo_url : option string := Some "postgresql://db/postgres".

Definition demo_secret : option string := Some "s3cret".

Definition alice : json := JObj [("userId", JInt 42); ("username", JStr "Alice")].

Definition bob_again : json := JObj [("userId", JInt 42); ("username", JStr "Bob")].

(** A JSON request carrying the secret [demo_secret]. *)
Definition post (body : json) : request :=
  mkRequest demo_secret true (Some body) "203.0.113.7".

(** A request without the [X-API-Secret] header and without a body. *)
Definition anonymous : request := mkRequest None false None "203.0.113.7".

(** The world after the start-up on an empty database. *)
Definition ready_world : world :=
  mkWorld (mkDb (Some []) true) 1 None
          [Connect demo_url; Execute CreateTableFeedback;
           Execute CreateIndexUserId; Commit; Close]
          [LogInfo InitOk] [].

(** The world after Alice's submission in [ready_world]. *)
Definition alice_world : world :=
  mkWorld (mkDb (Some [mkRow 1 "Alice" 42]) true) 2 None
          [Connect demo_url; Execute CreateTableFeedback;
           Execute CreateIndexUserId; Commit; Close;
           Connect demo_url;
           Execute (InsertFeedback (JStr "Alice") (JInt 42)); Commit; Close]
          [LogInfo InitOk; LogInfo (NewSubmission (JInt 42) (JStr "Alice"))] [].
(** ** The driver: connections, cursors, transactions *)

Section App.

(** Configuration read from the process environment when the module is
    loaded, and the conversion of statement parameters. *)
Context (cv : conversion).
Context (DATABASE_URL : option string).
Context (API_SECRET : option string).

(** [psycopg2.connect(dsn)]: a new connection, whose transaction sees the
    committed database. *)
Definition connect (dsn : option string) : M unit :=
  record_call (Connect dsn) ;;
  next_fault ;;
  fun w => set_session (Some (committed w)) w.

(** [cursor.execute(q, args)]; the rows of the result stay in the cursor. *)
Definition execute (q : sql) : M (list record) :=
  record_call (Execute q) ;;
  next_fault ;;
  fun w =>
    match session w with
    | None => (Raise (Exc InterfaceError), w)
    | Some db =>
        match run_sql cv q db (id_seq w) with
        | (r, db', seq') =>
            (r, mkWorld (committed w) seq' (Some db') (calls w) (log w) (faults w))
        end
    end.

(** [conn.commit()] *)
Definition commit : M unit :=
  record_call Commit ;;
  next_fault ;;
  fun w =>
    match session w with
    | None => (Raise (Exc InterfaceError), w)
    | Some db =>
        (Return tt, mkWorld db (id_seq w) (Some db) (calls w) (log w) (faults w))
    end.

(** [conn.rollback()]: the transaction's changes are dropped. *)
Definition rollback : M unit :=
  record_call Rollback ;;
  fun w =>
    match session w with
    | None => (Return tt, w)
    | Some _ => set_session (Some (committed w)) w
    end.

(** [conn.close()] *)
Definition close : M unit :=
  record_call Close ;;
  set_session None.

(** [cursor.fetchone()] and [cursor.fetchall()] on the rows [execute] left
    in the cursor. *)
Definition fetchone (rs : list record) : option record := hd_error rs.

Definition fetchall (rs : list record) : list record := rs.

(** [result[key]] *)
Definition subscript (r : option record) (key : string) : M json :=
  match r with
  | None => raise (Exc TypeError)
  | Some d => match assoc key d with
              | Some v => ret v
              | None => raise (Exc KeyError)
              end
  end.

(** ** app.py *)

(** [with get_db() as conn: body].  The generator connects outside its
    [try]; the body of the [with] statement runs at the [yield], so a normal
    end of the body, a [return] included, resumes the generator at
    [conn.commit()], and an exception of the body is thrown into it at the
    [yield]. *)
Definition get_db {A} (body : M A) : M A :=
  connect DATABASE_URL ;;
  try_finally
    (try_except
       (v <- body ;;
        commit ;;
        ret v)
       (fun e =>
          rollback ;;
          raise e))
    close.

Definition init_db : M unit :=
  get_db
    (execute CreateTableFeedback ;;
     execute CreateIndexUserId ;;
     ret tt) ;;
  logger (LogInfo InitOk).

(** The module-level [try: init_db() except Exception as e: ...]. *)
Definition startup : M unit :=
  try_except init_db (fun e => logger (LogError (InitFailed e))).

Definition option_string_eqb (a b : option string) : bool :=
  match a, b with
  | None, None => true
  | Some x, Some y => String.eqb x y
  | _, _ => false
  end.

(** Truth value of [API_SECRET], a [str] or [None]. *)
Definition secret_truthy (s : option string) : bool :=
  match s with
  | None => false
  | Some x => negb (String.eqb x "")
  end.

(** [API_SECRET and auth_header != API_SECRET] *)
Definition secret_mismatch (auth_header : option string) : bool :=
  secret_truthy API_SECRET && negb (option_string_eqb auth_header API_SECRET).

(** [data.get(key)]: only a [dict] has the method. *)
Definition data_get (data : json) (key : string) : M json :=
  match data with
  | JObj l => match assoc key l with
              | Some v => ret v
              | None => ret JNull
              end
  | _ => raise (Exc AttributeError)
  end.

Definition reason (success : bool) (r : string) : json :=
  JObj [("success", JBool success); ("reason", JStr r)].

Definition health : M response :=
  ret (JObj [("status", JStr "healthy")], 200).

Definition submit (req : request) : M response :=
  let auth_header := x_api_secret req in
  if secret_mismatch auth_header then
    logger (LogWarning (InvalidSecret (remote_addr req))) ;;
    ret (reason false "unauthorized", 401)
  else if negb (is_json req) then
    ret (reason false "invalid_content_type", 400)
  else
    match json_body req with
    | None =>
        logger (LogError (JsonParseError (Exc BadRequest))) ;;
        ret (reason false "invalid_json", 400)
    | Some data =>
        user_id <- data_get data "userId" ;;
        username <- data_get data "username" ;;
        if negb (truthy user_id) || negb (truthy username) then
          ret (reason false "missing_required_fields", 400)
        else
          try_except
            (get_db
               (execute (InsertFeedback username user_id) ;;
                logger (LogInfo (NewSubmission user_id username)) ;;
                ret (JObj [("success", JBool true)], 200)))
            (fun e =>
               match e with
               | IntegrityError _ =>
                   logger (LogInfo (DuplicateIgnored user_id)) ;;
                   ret (reason false "already_submitted", 200)
               | _ =>
                   logger (LogError (DatabaseError e)) ;;
                   ret (reason false "internal_error", 500)
               end)
    end.

Definition stats (req : request) : M response :=
  let auth_header := x_api_secret req in
  if secret_mismatch auth_header then
    ret (JObj [("error", JStr "unauthorized")], 401)
  else
    try_except
      (get_db
         (rs <- execute SelectCount ;;
          let result := fetchone rs in
          total <- subscript result "total" ;;
          ret (JObj [("total_submissions", total)], 200)))
      (fun e =>
         logger (LogError (StatsError e)) ;;
         ret (JObj [("error", JStr "internal_error")], 500)).

Definition list_submissions (req : request) : M response :=
  let auth_header := x_api_secret req in
  if secret_mismatch auth_header then
    ret (JObj [("error", JStr "unauthorized")], 401)
  else
    try_except
      (get_db
         (rs <- execute SelectRecent ;;
          let results := fetchall rs in
          ret (JObj [("submissions", JArr (map JObj results));
                     ("count", JInt (Z.of_nat (List.length results)))], 200)))
      (fun e =>
         logger (LogError (ListError e)) ;;
         ret (JObj [("error", JStr "internal_error")], 500)).



(** ** Runs of the service *)

(** The failure the next fallible driver call will meet. *)
Definition head_fault (w : world) : option error_class :=
  match faults w with
  | Some k :: _ => Some k
  | _ => None
  end.


(** What can happen to the world: the process starts, a request is served,
    or the environment plans other failures. *)
Inductive step : world -> world -> Prop :=
| step_startup w : step w (snd (startup w))
| step_health w : step w (snd (health w))
| step_submit req w : step w (snd (submit req w))
| step_stats req w : step w (snd (stats req w))
| step_list req w : step w (snd (list_submissions req w))
| step_faults fs w : step w (set_faults fs w).

(** A database without the table, before the process has ever started. *)
Definition empty_world (seq : Z) (fs : list (option error_class)) : world :=
  mkWorld (mkDb None false) seq None [] [] fs.

Inductive reachable : world -> Prop :=
| reachable_empty seq fs : reachable (empty_world seq fs)
| reachable_step w w' : reachable w -> step w w' -> reachable w'.

(** Requests to [/api/submit] served one after the other. *)
Fixpoint run_submits (reqs : list request) (w : world)
  : list (result response) * world :=
  match reqs with
  | [] => ([], w)
  | req :: t =>
      let (o, w1) := submit req w in
      let (os, w2) := run_submits t w1 in
      (o :: os, w2)
  end.

Definition success_response : response := (JObj [("success", JBool true)], 200).

Definition is_success (o : result response) : bool :=
  match o with
  | Return (JObj [(_, JBool true)], 200) => true
  | _ => false
  end.

Definition successes (os : list (result response)) : nat :=
  List.length (filter is_success os).

(** Keys of a JSON object, in order. *)
Definition keys (v : json) : list string :=
  match v with
  | JObj l => map fst l
  | _ => []
  end.

(** ** Properties of handlers *)

(** Every value [m] returns satisfies [Q]. *)
Definition yields {A} (Q : A -> Prop) (m : M A) : Prop :=
  forall w, match fst (m w) with
            | Return a => Q a
            | Raise _ => True
            end.

(** [m] returns a value in every world: no exception leaves it. *)
Definition total {A} (m : M A) : Prop :=
  forall w, exists a, fst (m w) = Return a.

(** The statuses of the three endpoints once the secret check has passed. *)
Definition passed_gate (r : response) : Prop :=
  snd r = 200 \/ snd r = 400 \/ snd r = 500.

(** [req] passes every check of [submit] before the insert, with the values
    [user_id] and [username_v] of its two fields. *)
Definition accepted (req : request) (user_id username_v : json) : Prop :=
  secret_mismatch (x_api_secret req) = false /\
  is_json req = true /\
  exists l, json_body req = Some (JObj l) /\
            assoc "userId" l = Some user_id /\
            assoc "username" l = Some username_v /\
            truthy user_id = true /\
            truthy username_v = true.

Definition already_submitted : response := (reason false "already_submitted", 200).

Definition internal_error : response := (reason false "internal_error", 500).

(** The value [data.get(key)] reads from a [dict]. *)
Definition field (l : list (string * json)) (key : string) : json :=
  match assoc key l with
  | Some v => v
  | None => JNull
  end.

Definition missing_required_fields : response :=
  (reason false "missing_required_fields", 400).

(** ** Further properties *)

(** None of the first [n] fallible driver calls is going to fail. *)
Definition quiet (n : nat) (w : world) : Prop :=
  forall k, ~ In (Some k) (firstn n (faults w)).

(** The driver calls of one [with get_db()] block around one statement. *)
Definition transaction_calls (q : sql) (tr : list call) : Prop :=
  tr = [Connect DATABASE_URL] \/
  tr = [Connect DATABASE_URL; Execute q; Rollback; Close] \/
  tr = [Connect DATABASE_URL; Execute q; Commit; Close] \/
  tr = [Connect DATABASE_URL; Execute q; Commit; Rollback; Close].

(** The status of an answer of [submit] that came out of the insert. *)
Definition from_insert (r : response) : Prop := snd r = 200 \/ snd r = 500.


Definition error_response : response := (JObj [("error", JStr "internal_error")], 500).


Lemma preserves_ret {A} (P : world -> Prop) (a : A) : preserves P (ret a).
Proof. intros w H; exact H. Qed.

Lemma preserves_raise {A} (P : world -> Prop) (e : exception) :
  preserves P (@raise A e).
Proof. intros w H; exact H. Qed.

Lemma preserves_bind {A B} (P : world -> Prop) (m : M A) (k : A -> M B) :
  preserves P m -> (forall a, preserves P (k a)) -> preserves P (bind m k).
Proof.
  intros Hm Hk w H. unfold bind. specialize (Hm w H).
  destruct (m w) as [[a|e] w1]; simpl in *; [apply Hk|]; assumption.
Qed.

Lemma preserves_try_except {A} (P : world -> Prop) (m : M A) h :
  preserves P m -> (forall e, preserves P (h e)) -> preserves P (try_except m h).
Proof.
  intros Hm Hh w H. unfold try_except. specialize (Hm w H).
  destruct (m w) as [[a|e] w1]; simpl in *; [|apply Hh]; assumption.
Qed.

Lemma preserves_try_finally {A} (P : world -> Prop) (m : M A) f :
  preserves P m -> preserves P f -> preserves P (try_finally m f).
Proof.
  intros Hm Hf w H. unfold try_finally. specialize (Hm w H).
  destruct (m w) as [r w1]; simpl in *. specialize (Hf w1 Hm).
  destruct (f w1) as [[u|e] w2]; simpl in *; assumption.
Qed.

Lemma preserves_if {A} (P : world -> Prop) (b : bool) (m1 m2 : M A) :
  preserves P m1 -> preserves P m2 -> preserves P (if b then m1 else m2).
Proof. destruct b; auto. Qed.

Create HintDb pres.
#[local] Hint Resolve preserves_ret preserves_raise preserves_bind
  preserves_try_except preserves_try_finally preserves_if : pres.

Lemma table_ok_mono (seq seq' : Z) (rows : list row) :
  seq <= seq' -> table_ok seq rows -> table_ok seq' rows.
Proof.
  intros Hle (Hu & Hi & Hall). repeat split; auto.
  eapply Forall_impl; [|exact Hall]. simpl. intros r [? ?]; split; [lia|auto].
Qed.

Lemma db_ok_mono (seq seq' : Z) (db : database) :
  seq <= seq' -> db_ok seq db -> db_ok seq' db.
Proof.
  unfold db_ok. destruct (feedback db); auto. apply table_ok_mono.
Qed.

Lemma has_userId_false (u : Z) (rows : list row) :
  has_userId u rows = false <-> ~ In u (map userId rows).
Proof.
  unfold has_userId. induction rows as [|r t IH]; simpl.
  - tauto.
  - rewrite orb_false_iff, IH, Z.eqb_neq. tauto.
Qed.

Lemma has_userId_true (u : Z) (rows : list row) :
  has_userId u rows = true <-> In u (map userId rows).
Proof.
  destruct (has_userId u rows) eqn:E.
  - split; auto. intros _.
    destruct (in_dec Z.eq_dec u (map userId rows)) as [Hin|Hn]; auto.
    apply has_userId_false in Hn. congruence.
  - apply has_userId_false in E. split; [discriminate | contradiction].
Qed.

Lemma has_id_false (i : Z) (rows : list row) :
  has_id i rows = false <-> ~ In i (map id rows).
Proof.
  unfold has_id. induction rows as [|r t IH]; simpl.
  - tauto.
  - rewrite orb_false_iff, IH, Z.eqb_neq. tauto.
Qed.

Lemma table_ok_fresh_id (seq : Z) (rows : list row) :
  table_ok seq rows -> has_id seq rows = false.
Proof.
  intros (_ & _ & Hall). apply has_id_false. intros Hin.
  apply in_map_iff in Hin. destruct Hin as (r & Hr & Hin).
  rewrite Forall_forall in Hall. apply Hall in Hin. lia.
Qed.

Lemma NoDup_snoc {A} (l : list A) (a : A) :
  NoDup l -> ~ In a l -> NoDup (l ++ [a]).
Proof.
  induction l as [|x t IH]; simpl; intros Hnd Hin.
  - constructor; [tauto | constructor].
  - inversion Hnd; subst. constructor.
    + rewrite in_app_iff; simpl. intros [H|[H|[]]]; [tauto | subst; tauto].
    + apply IH; tauto.
Qed.

Lemma table_ok_insert (seq : Z) (rows : list row) (name : string) (u : Z) :
  table_ok seq rows -> in_bigint u = true -> has_userId u rows = false ->
  table_ok (seq + 1) (rows ++ [mkRow seq name u]).
Proof.
  intros Hok Hu Hfresh. pose proof (table_ok_fresh_id _ _ Hok) as Hid.
  destruct Hok as (Hnu & Hni & Hall).
  unfold table_ok. rewrite !map_app. simpl. repeat split.
  - apply NoDup_snoc; auto. now apply has_userId_false.
  - apply NoDup_snoc; auto. now apply has_id_false.
  - apply Forall_app. split.
    + eapply Forall_impl; [|exact Hall]. simpl. intros r [? ?]; split; [lia|auto].
    + constructor; [simpl; split; [lia|auto] | constructor].
Qed.

(** ** The driver calls keep the invariant *)

Ltac munfold :=
  unfold get_db, connect, commit, rollback, close, execute, subscript,
    try_finally, try_except, bind, ret, raise, record_call, logger,
    set_session, modify, next_fault, set_faults in *.

Lemma inv_record_call (c : call) : preserves inv (record_call c).
Proof. intros [cm sq se cs lg fs] H; exact H. Qed.

Lemma inv_logger (l : log_entry) : preserves inv (logger l).
Proof. intros [cm sq se cs lg fs] H; exact H. Qed.

Lemma inv_next_fault : preserves inv next_fault.
Proof.
  intros [cm sq se cs lg fs] H. unfold next_fault; simpl.
  destruct fs as [|[k|] fs]; exact H.
Qed.

Lemma inv_connect (dsn : option string) : preserves inv (connect dsn).
Proof.
  intros [cm sq se cs lg fs] [Hc Hs]. munfold; simpl in *.
  destruct fs as [|[k|] fs]; unfold inv; simpl; auto.
Qed.

Lemma run_sql_inv (q : sql) (cm s : database) (seq : Z) :
  db_ok seq cm -> db_ok seq s -> (feedback s = None -> feedback cm = None) ->
  match run_sql cv q s seq with
  | (_, s', seq') =>
      db_ok seq' cm /\ db_ok seq' s' /\ (feedback s' = None -> feedback cm = None)
  end.
Proof.
  intros Hc Hs Himp. unfold run_sql.
  assert (Hkeep : db_ok seq cm /\ db_ok seq s /\
                  (feedback s = None -> feedback cm = None)) by tauto.
  assert (Hc1 : db_ok (seq + 1) cm) by (eapply db_ok_mono; [|exact Hc]; lia).
  assert (Hs1 : db_ok (seq + 1) s) by (eapply db_ok_mono; [|exact Hs]; lia).
  destruct q as [| |un uid| |].
  - case_eq (feedback s); [intros rows E; exact Hkeep|intros E].
    unfold db_ok; simpl. rewrite (Himp E).
    repeat split; try constructor; try discriminate.
  - case_eq (feedback s); [intros rows E|intros E; exact Hkeep].
    unfold db_ok in *; simpl. rewrite E in *.
    split; [|split]; auto; try discriminate; try tauto.
  - destruct (to_text cv un) as [k|name]; [exact Hkeep|].
    destruct (to_bigint cv uid) as [k|u]; [exact Hkeep|].
    destruct (in_bigint u) eqn:Eu; simpl; [|exact Hkeep].
    case_eq (feedback s); [intros rows E|intros E; exact Hkeep].
    destruct (has_id seq rows); [tauto|].
    destruct (has_userId u rows) eqn:Ef; [tauto|].
    split; [|split]; auto; try discriminate; try tauto.
    unfold db_ok in *; simpl. rewrite E in Hs. now apply table_ok_insert.
  - case_eq (feedback s); intros; exact Hkeep.
  - case_eq (feedback s); intros; exact Hkeep.
Qed.

Lemma inv_execute (q : sql) : preserves inv (execute q).
Proof.
  intros [cm sq se cs lg fs] [Hc Hs]. munfold; simpl in *.
  destruct fs as [|[k|] fs]; simpl; unfold inv; simpl; auto.
  all: destruct se as [s|]; simpl; auto.
  all: destruct Hs as [Hs Himp].
  all: pose proof (run_sql_inv q cm s sq Hc Hs Himp) as HH.
  all: destruct (run_sql cv q s sq) as [[r s'] seq']; simpl; tauto.
Qed.

Lemma inv_commit : preserves inv commit.
Proof.
  intros [cm sq se cs lg fs] [Hc Hs]. munfold; simpl in *.
  destruct fs as [|[k|] fs]; simpl; unfold inv; simpl; auto.
  all: destruct se as [s|]; simpl; auto.
  all: tauto.
Qed.

Lemma inv_rollback : preserves inv rollback.
Proof.
  intros [cm sq se cs lg fs] [Hc Hs]. munfold; simpl in *.
  destruct se as [s|]; unfold inv; simpl; auto.
Qed.

Lemma inv_close : preserves inv close.
Proof.
  intros [cm sq se cs lg fs] [Hc Hs]. munfold; unfold inv; simpl in *. auto.
Qed.

#[local] Hint Resolve inv_record_call inv_logger inv_next_fault inv_connect
  inv_execute inv_commit inv_rollback inv_close : pres.

Lemma inv_get_db {A} (body : M A) : preserves inv body -> preserves inv (get_db body).
Proof. intros Hb. unfold get_db. auto 10 with pres. Qed.

Lemma inv_subscript (r : option record) (key : string) :
  preserves inv (subscript r key).
Proof.
  unfold subscript. destruct r as [d|]; [destruct (assoc key d)|]; auto with pres.
Qed.

Lemma inv_data_get (data : json) (key : string) : preserves inv (data_get data key).
Proof.
  unfold data_get. destruct data; auto with pres.
  destruct (assoc key l); auto with pres.
Qed.

#[local] Hint Resolve inv_get_db inv_subscript inv_data_get : pres.

Lemma inv_init_db : preserves inv init_db.
Proof. unfold init_db. auto 10 with pres. Qed.

Lemma inv_startup : preserves inv startup.
Proof. unfold startup. auto using inv_init_db with pres. Qed.

Lemma inv_submit (req : request) : preserves inv (submit req).
Proof.
  unfold submit.
  destruct (secret_mismatch (x_api_secret req)); [auto with pres|].
  destruct (negb (is_json req)); [auto with pres|].
  destruct (json_body req) as [data|]; [|auto with pres].
  apply preserves_bind; [auto with pres|intros user_id].
  apply preserves_bind; [auto with pres|intros username_v].
  apply preserves_if; [auto with pres|].
  apply preserves_try_except; [auto 10 with pres|].
  intros [c|k]; auto with pres.
Qed.

Lemma inv_stats (req : request) : preserves inv (stats req).
Proof.
  unfold stats. apply preserves_if; auto 10 with pres.
Qed.

Lemma inv_list_submissions (req : request) : preserves inv (list_submissions req).
Proof.
  unfold list_submissions. apply preserves_if; auto 10 with pres.
Qed.

(** ** Every handler leaves the connection closed *)

Lemma session_get_db {A} (body : M A) (w : world) :
  session (snd (get_db body w)) =
  match head_fault w with
  | Some _ => session w
  | None => None
  end.
Proof.
  destruct w as [cm sq se cs lg fs]. unfold head_fault. munfold; simpl.
  destruct fs as [|[k|] fs]; simpl; auto;
    (destruct (body _) as [[v|e] w1]; simpl; auto;
     destruct (faults w1) as [|[k'|] fs1]; simpl; auto;
     destruct (session w1); simpl; auto).
Qed.

Lemma closed_get_db {A} (body : M A) : preserves closed (get_db body).
Proof.
  intros w H. unfold closed. rewrite session_get_db.
  destruct (head_fault w); auto.
Qed.

Lemma closed_logger (l : log_entry) : preserves closed (logger l).
Proof. intros [cm sq se cs lg fs] H; exact H. Qed.

Lemma closed_data_get (data : json) (key : string) :
  preserves closed (data_get data key).
Proof.
  unfold data_get. destruct data; auto with pres.
  destruct (assoc key l); auto with pres.
Qed.

#[local] Hint Resolve closed_get_db closed_logger closed_data_get : pres.

Lemma closed_startup : preserves closed startup.
Proof. unfold startup, init_db. auto 10 with pres. Qed.

Lemma closed_submit (req : request) : preserves closed (submit req).
Proof.
  unfold submit.
  destruct (secret_mismatch (x_api_secret req)); [auto with pres|].
  destruct (negb (is_json req)); [auto with pres|].
  destruct (json_body req) as [data|]; [|auto with pres].
  apply preserves_bind; [auto with pres|intros user_id].
  apply preserves_bind; [auto with pres|intros username_v].
  apply preserves_if; [auto with pres|].
  apply preserves_try_except; [auto with pres|].
  intros [c|k]; auto with pres.
Qed.

Lemma closed_stats (req : request) : preserves closed (stats req).
Proof. unfold stats. apply preserves_if; auto 10 with pres. Qed.

Lemma closed_list_submissions (req : request) :
  preserves closed (list_submissions req).
Proof. unfold list_submissions. apply preserves_if; auto 10 with pres. Qed.

Lemma consistent_step (w w' : world) : step w w' -> consistent w -> consistent w'.
Proof.
  intros Hst [Hi Hc]. destruct Hst.
  - split; [now apply inv_startup | now apply closed_startup].
  - split; assumption.
  - split; [now apply inv_submit | now apply closed_submit].
  - split; [now apply inv_stats | now apply closed_stats].
  - split; [now apply inv_list_submissions | now apply closed_list_submissions].
  - destruct w; split; assumption.
Qed.

Lemma reachable_consistent (w : world) : reachable w -> consistent w.
Proof.
  induction 1 as [seq fs | w w' _ IH Hst].
  - repeat split.
  - eapply consistent_step; eassumption.
Qed.

(** ** The transaction wrapper *)

Lemma committed_execute (q : sql) (w : world) :
  committed (snd (execute q w)) = committed w.
Proof.
  destruct w as [cm sq se cs lg fs]. munfold; simpl.
  destruct fs as [|[k|] fs]; simpl; auto;
    (destruct se as [s|]; simpl; auto;
     destruct (run_sql cv q s sq) as [[r s'] seq']; reflexivity).
Qed.



(** ** What a handler can return *)

Lemma yields_ret {A} (Q : A -> Prop) (a : A) : Q a -> yields Q (ret a).
Proof. intros H w; exact H. Qed.

Lemma yields_raise {A} (Q : A -> Prop) (e : exception) : yields Q (@raise A e).
Proof. intros w; exact I. Qed.

Lemma yields_bind {A B} (Q : B -> Prop) (m : M A) (k : A -> M B) :
  (forall a, yields Q (k a)) -> yields Q (bind m k).
Proof.
  intros Hk w. unfold bind. destruct (m w) as [[a|e] w1]; simpl; [apply Hk|exact I].
Qed.

Lemma yields_try_except {A} (Q : A -> Prop) (m : M A) h :
  yields Q m -> (forall e, yields Q (h e)) -> yields Q (try_except m h).
Proof.
  intros Hm Hh w. unfold try_except. specialize (Hm w).
  destruct (m w) as [[a|e] w1]; simpl in *; [exact Hm|apply Hh].
Qed.

Lemma yields_try_finally {A} (Q : A -> Prop) (m : M A) f :
  yields Q m -> yields Q (try_finally m f).
Proof.
  intros Hm w. unfold try_finally. specialize (Hm w).
  destruct (m w) as [r w1]; simpl in *.
  destruct (f w1) as [[u|e] w2]; simpl; [exact Hm|exact I].
Qed.

Lemma yields_if {A} (Q : A -> Prop) (b : bool) (m1 m2 : M A) :
  yields Q m1 -> yields Q m2 -> yields Q (if b then m1 else m2).
Proof. destruct b; auto. Qed.

Lemma yields_get_db {A} (Q : A -> Prop) (body : M A) :
  yields Q body -> yields Q (get_db body).
Proof.
  intros Hb. unfold get_db.
  apply yields_bind; intros _. apply yields_try_finally.
  apply yields_try_except.
  - intros w. specialize (Hb w). unfold bind.
    destruct (body w) as [[a|e] w1]; simpl in *; [|exact I].
    destruct (commit w1) as [[u|e] w2]; simpl; [exact Hb|exact I].
  - intros e. apply yields_bind; intros _. apply yields_raise.
Qed.

Lemma total_ret {A} (a : A) : total (ret a).
Proof. intros w; exists a; reflexivity. Qed.

Lemma total_logger_then {A} (l : log_entry) (m : M A) :
  total m -> total (logger l ;; m).
Proof. intros Hm w. unfold bind, logger, modify. apply Hm. Qed.

Lemma total_try_except {A} (m : M A) h :
  (forall e, total (h e)) -> total (try_except m h).
Proof.
  intros Hh w. unfold try_except.
  destruct (m w) as [[a|e] w1] eqn:E; simpl; [exists a; reflexivity|apply Hh].
Qed.

Lemma total_if {A} (b : bool) (m1 m2 : M A) :
  total m1 -> total m2 -> total (if b then m1 else m2).
Proof. destruct b; auto. Qed.

Create HintDb resp.
#[local] Hint Resolve yields_ret yields_raise yields_bind yields_try_except
  yields_try_finally yields_if yields_get_db
  total_ret total_logger_then total_try_except total_if : resp.

Lemma submit_passed_gate (req : request) :
  secret_mismatch (x_api_secret req) = false -> yields passed_gate (submit req).
Proof.
  intros Hs. unfold submit, passed_gate. rewrite Hs.
  apply yields_if; [apply yields_ret; simpl; auto|].
  destruct (json_body req) as [data|];
    [|apply yields_bind; intros _; apply yields_ret; simpl; auto].
  apply yields_bind; intros user_id. apply yields_bind; intros username_v.
  apply yields_if; [apply yields_ret; simpl; auto|].
  apply yields_try_except.
  - apply yields_get_db. apply yields_bind; intros _.
    apply yields_bind; intros _. apply yields_ret; simpl; auto.
  - intros [c|k]; apply yields_bind; intros _; apply yields_ret; simpl; auto.
Qed.

Lemma stats_passed_gate (req : request) :
  secret_mismatch (x_api_secret req) = false -> yields passed_gate (stats req).
Proof.
  intros Hs. unfold stats, passed_gate. rewrite Hs.
  apply yields_try_except.
  - apply yields_get_db. apply yields_bind; intros rs.
    apply yields_bind; intros total_v. apply yields_ret; simpl; auto.
  - intros e; apply yields_bind; intros _; apply yields_ret; simpl; auto.
Qed.

Lemma list_passed_gate (req : request) :
  secret_mismatch (x_api_secret req) = false ->
  yields passed_gate (list_submissions req).
Proof.
  intros Hs. unfold list_submissions, passed_gate. rewrite Hs.
  apply yields_try_except.
  - apply yields_get_db. apply yields_bind; intros rs.
    apply yields_ret; simpl; auto.
  - intros e; apply yields_bind; intros _; apply yields_ret; simpl; auto.
Qed.

Lemma total_startup : total startup.
Proof. unfold startup. apply total_try_except. intros e w. exists tt. reflexivity. Qed.

Lemma total_stats (req : request) : total (stats req).
Proof. unfold stats. auto 10 with resp. Qed.

Lemma total_list_submissions (req : request) : total (list_submissions req).
Proof. unfold list_submissions. auto 10 with resp. Qed.

(** ** The secret check *)

Lemma option_string_eqb_eq (a b : option string) :
  option_string_eqb a b = true <-> a = b.
Proof.
  destruct a as [x|], b as [y|]; simpl; try (split; congruence).
  rewrite String.eqb_eq. split; congruence.
Qed.

Lemma secret_mismatch_true (s : string) (h : option string) :
  API_SECRET = Some s -> s <> "" -> h <> Some s -> secret_mismatch h = true.
Proof.
  intros Hs Hne Hh. unfold secret_mismatch. rewrite Hs. simpl.
  apply andb_true_iff. split.
  - apply negb_true_iff. now apply String.eqb_neq.
  - apply negb_true_iff. destruct (option_string_eqb h (Some s)) eqn:E; auto.
    apply option_string_eqb_eq in E. contradiction.
Qed.

(** C3, amended.  When the configured secret is not the empty string, a
    request whose [X-API-Secret] header is absent or different is answered
    401 by [submit], [stats] and [list_submissions], whatever its content
    type and body; the handler makes no driver call and leaves the database
    as it is ([submit] adds one warning to the log). *)
Theorem secret_gate_rejects (s : string) (req : request) (w : world) :
  API_SECRET = Some s -> s <> "" -> x_api_secret req <> Some s ->
  submit req w =
    (Return (reason false "unauthorized", 401),
     mkWorld (committed w) (id_seq w) (session w) (calls w)
             (log w ++ [LogWarning (InvalidSecret (remote_addr req))])
             (faults w)) /\
  stats req w = (Return (JObj [("error", JStr "unauthorized")], 401), w) /\
  list_submissions req w =
    (Return (JObj [("error", JStr "unauthorized")], 401), w).
Proof.
  intros Hs Hne Hh. pose proof (secret_mismatch_true s _ Hs Hne Hh) as Hm.
  unfold submit, stats, list_submissions. rewrite Hm. repeat split.
Qed.

(** ** The insert of [submit] *)

Lemma submit_accepted (req : request) (user_id username_v : json) (w : world) :
  accepted req user_id username_v ->
  submit req w =
  try_except
    (get_db
       (execute (InsertFeedback username_v user_id) ;;
        logger (LogInfo (NewSubmission user_id username_v)) ;;
        ret (JObj [("success", JBool true)], 200)))
    (fun e =>
       match e with
       | IntegrityError _ =>
           logger (LogInfo (DuplicateIgnored user_id)) ;;
           ret (reason false "already_submitted", 200)
       | _ =>
           logger (LogError (DatabaseError e)) ;;
           ret (reason false "internal_error", 500)
       end) w.
Proof.
  intros (Hs & Hj & l & Hb & Hu & Hn & Htu & Htn).
  unfold submit. rewrite Hs, Hj, Hb. simpl.
  unfold data_get, bind at 1 2, ret at 1 2. rewrite Hu, Hn. simpl.
  rewrite Htu, Htn. reflexivity.
Qed.



(** What one call of [submit] does to the committed database, in any world
    and for any request: a success appends one row with the next [id], with
    a [userId] that was not in the table; anything else leaves the database
    as it was. *)
Lemma submit_effect (req : request) (w : world) :
  match submit req w with
  | (o, w') =>
      if is_success o then
        exists rows name u,
          feedback (committed w) = Some rows /\
          ~ In u (map userId rows) /\
          committed w' =
            mkDb (Some (rows ++ [mkRow (id_seq w) name u]))
                 (idx_userId (committed w))
      else committed w' = committed w
  end.
Proof.
  destruct w as [cm sq se cs lg fs]. unfold submit.
  destruct (secret_mismatch (x_api_secret req)); [reflexivity|].
  destruct (negb (is_json req)); [reflexivity|].
  destruct (json_body req) as [data|]; [|reflexivity].
  unfold data_get.
  destruct data as [| | | | | |l]; try reflexivity.
  destruct (assoc "userId" l) as [user_id|], (assoc "username" l) as [username_v|];
    unfold bind at 1 2, ret at 1 2; simpl.
  2-4: rewrite ?orb_true_r; reflexivity.
  destruct (negb (truthy user_id) || negb (truthy username_v)); [reflexivity|].
  munfold; simpl. unfold run_sql.
  destruct fs as [|[k|] fs]; simpl; try reflexivity.
  - destruct (to_text cv username_v) as [k|name]; [reflexivity|].
    destruct (to_bigint cv user_id) as [k|u]; [reflexivity|].
    destruct (in_bigint u); simpl; [|reflexivity].
    destruct cm as [[rows|] ix]; simpl; [|reflexivity].
    destruct (has_id sq rows); [reflexivity|].
    destruct (has_userId u rows) eqn:Hu; [reflexivity|]. simpl.
    exists rows, name, u. repeat split. now apply has_userId_false.
  - destruct fs as [|[k|] fs]; simpl; try reflexivity.
    + destruct (to_text cv username_v) as [k|name]; [reflexivity|].
      destruct (to_bigint cv user_id) as [k|u]; [reflexivity|].
      destruct (in_bigint u); simpl; [|reflexivity].
      destruct cm as [[rows|] ix]; simpl; [|reflexivity].
      destruct (has_id sq rows); [reflexivity|].
      destruct (has_userId u rows) eqn:Hu; [reflexivity|]. simpl.
      exists rows, name, u. repeat split. now apply has_userId_false.
    + destruct (to_text cv username_v) as [k|name]; [reflexivity|].
      destruct (to_bigint cv user_id) as [k|u]; [reflexivity|].
      destruct (in_bigint u); simpl; [|reflexivity].
      destruct cm as [[rows|] ix]; simpl; [|reflexivity].
      destruct (has_id sq rows); [reflexivity|].
      destruct (has_userId u rows) eqn:Hu; [reflexivity|]. simpl.
      destruct fs as [|[k|] fs]; simpl; try reflexivity;
        (exists rows, name, u; repeat split; now apply has_userId_false).
Qed.



Ltac mapping_leaf :=
  do 2 eexists; split; [reflexivity|]; simpl;
  repeat match goal with |- _ /\ _ => split end;
  try solve [ intros; first [ reflexivity
                            | discriminate
                            | congruence
                            | intuition discriminate
                            | intuition congruence ] ];
  auto.

(** C4.  For a request that passed validation, in a reachable world:
    [submit] answers one of success/200, [already_submitted]/200 and
    [internal_error]/500; it answers [already_submitted] only when the
    [userId] is already in the table; every failure of the environment at
    [connect] or at [execute], a value a column does not accept, a [userId]
    outside [BIGINT] and a missing table give [internal_error]/500, and a
    failure at [commit] never gives success; whenever the answer is not
    success the committed database is unchanged. *)
Theorem submit_error_mapping (req : request) (user_id username_v : json)
        (w : world) :
  reachable w ->
  accepted req user_id username_v ->
  exists r w',
    submit req w = (Return r, w') /\
    (r = success_response \/ r = already_submitted \/ r = internal_error) /\
    (r = already_submitted ->
     exists u rows, to_bigint cv user_id = inr u /\
                    feedback (committed w) = Some rows /\
                    In u (map userId rows)) /\
    (r <> success_response -> committed w' = committed w) /\
    (forall k fs, faults w = Some k :: fs \/ faults w = None :: Some k :: fs ->
                  r = internal_error) /\
    (forall k fs, faults w = None :: None :: Some k :: fs ->
                  r <> success_response) /\
    (forall k, to_text cv username_v = inl k \/ to_bigint cv user_id = inl k ->
               r = internal_error) /\
    (forall u, to_bigint cv user_id = inr u -> in_bigint u = false ->
               r = internal_error) /\
    (feedback (committed w) = None -> r = internal_error).
Proof.
  intros Hr Hacc. apply reachable_consistent in Hr. destruct Hr as [[Hdb _] _].
  rewrite (submit_accepted _ _ _ _ Hacc). clear Hacc.
  destruct w as [cm sq se cs lg fs]; simpl in *.
  unfold success_response, already_submitted, internal_error, reason.
  munfold; simpl. unfold run_sql.
  assert (Hid : forall rows, feedback cm = Some rows -> has_id sq rows = false).
  { intros rows E. unfold db_ok in Hdb. rewrite E in Hdb.
    now apply table_ok_fresh_id. }
  destruct fs as [|[k1|] fs]; simpl; [| mapping_leaf |].
  - destruct (to_text cv username_v) as [k|name]; [mapping_leaf|].
    destruct (to_bigint cv user_id) as [k|u]; [mapping_leaf|].
    destruct (in_bigint u) eqn:Eu; simpl; [|mapping_leaf].
    destruct (feedback cm) as [rows|] eqn:E; [|mapping_leaf].
    rewrite (Hid rows eq_refl).
    destruct (has_userId u rows) eqn:Hu; simpl; mapping_leaf.
    intros _. exists u, rows. repeat split. now apply has_userId_true.
  - destruct fs as [|[k2|] fs]; simpl; [| mapping_leaf |].
    + destruct (to_text cv username_v) as [k|name]; [mapping_leaf|].
      destruct (to_bigint cv user_id) as [k|u]; [mapping_leaf|].
      destruct (in_bigint u) eqn:Eu; simpl; [|mapping_leaf].
      destruct (feedback cm) as [rows|] eqn:E; [|mapping_leaf].
      rewrite (Hid rows eq_refl).
      destruct (has_userId u rows) eqn:Hu; simpl; mapping_leaf.
      intros _. exists u, rows. repeat split. now apply has_userId_true.
    + destruct (to_text cv username_v) as [k|name]; [mapping_leaf|].
      destruct (to_bigint cv user_id) as [k|u]; [mapping_leaf|].
      destruct (in_bigint u) eqn:Eu; simpl; [|mapping_leaf].
      destruct (feedback cm) as [rows|] eqn:E; [|mapping_leaf].
      rewrite (Hid rows eq_refl).
      destruct (has_userId u rows) eqn:Hu; simpl.
      * mapping_leaf.
        intros _. exists u, rows. repeat split. now apply has_userId_true.
      * destruct fs as [|[k3|] fs]; simpl; mapping_leaf.
Qed.

(** ** Validation of the fields *)

(** X3.  On a [dict] body with [userId] or [username] absent or falsy, [submit]
    answers [missing_required_fields]/400 without any driver call. *)
Lemma submit_missing_fields (req : request) (l : list (string * json))
      (w : world) :
  secret_mismatch (x_api_secret req) = false ->
  is_json req = true ->
  json_body req = Some (JObj l) ->
  truthy (field l "userId") = false \/ truthy (field l "username") = false ->
  submit req w = (Return missing_required_fields, w).
Proof.
  intros Hs Hj Hb Hf. unfold submit. rewrite Hs, Hj, Hb. simpl.
  unfold data_get, field in *.
  destruct (assoc "userId" l) as [user_id|], (assoc "username" l) as [username_v|];
    unfold bind, ret; simpl in *;
    destruct Hf as [Hf|Hf]; rewrite ?Hf; simpl; rewrite ?orb_true_r;
    try reflexivity; discriminate.
Qed.

(** On a body that is not a [dict], [data.get] raises [AttributeError], which
    no [except] clause of [submit] covers. *)
Lemma submit_not_a_dict (req : request) (data : json) (w : world) :
  secret_mismatch (x_api_secret req) = false ->
  is_json req = true ->
  json_body req = Some data ->
  match data with JObj _ => False | _ => True end ->
  submit req w = (Raise (Exc AttributeError), w).
Proof.
  intros Hs Hj Hb Hd. unfold submit. rewrite Hs, Hj, Hb. simpl.
  destruct data; try reflexivity. contradiction.
Qed.

(** ** Listing *)







Lemma list_submissions_run (req : request) (rows : list row) (w : world) :
  secret_mismatch (x_api_secret req) = false ->
  faults w = [] ->
  feedback (committed w) = Some rows ->
  let results := map select_row (firstn 100 (order_by_id_desc rows)) in
  list_submissions req w =
  (Return (JObj [("submissions", JArr (map JObj results));
                 ("count", JInt (Z.of_nat (List.length results)))], 200),
   mkWorld (committed w) (id_seq w) None
           (calls w ++ [Connect DATABASE_URL; Execute SelectRecent; Commit; Close])
           (log w) []).
Proof.
  intros Hs Hf E results. unfold list_submissions. rewrite Hs.
  destruct w as [cm sq se cs lg fs]; simpl in *. subst fs.
  munfold; simpl. unfold run_sql, fetchall. rewrite E. simpl.
  rewrite <- !app_assoc. reflexivity.
Qed.


(** ** Counting *)

Lemma stats_run (req : request) (rows : list row) (w : world) :
  secret_mismatch (x_api_secret req) = false ->
  faults w = [] ->
  feedback (committed w) = Some rows ->
  stats req w =
  (Return (JObj [("total_submissions", JInt (Z.of_nat (List.length rows)))], 200),
   mkWorld (committed w) (id_seq w) None
           (calls w ++ [Connect DATABASE_URL; Execute SelectCount; Commit; Close])
           (log w) []).
Proof.
  intros Hs Hf E. unfold stats. rewrite Hs.
  destruct w as [cm sq se cs lg fs]; simpl in *. subst fs.
  munfold; simpl. unfold run_sql, fetchone. rewrite E. simpl.
  rewrite <- !app_assoc. reflexivity.
Qed.

Lemma run_submits_count (reqs : list request) (w : world) (rows : list row) :
  feedback (committed w) = Some rows ->
  exists rows1,
    feedback (committed (snd (run_submits reqs w))) = Some rows1 /\
    List.length rows1 = (List.length rows + successes (fst (run_submits reqs w)))%nat.
Proof.
  revert w rows. induction reqs as [|req t IH]; intros w rows E; simpl.
  - exists rows. split; [assumption|]. unfold successes; simpl. lia.
  - pose proof (submit_effect req w) as He.
    destruct (submit req w) as [o w1].
    assert (Hw1 : exists rows', feedback (committed w1) = Some rows' /\
                  List.length rows' =
                  (List.length rows + if is_success o then 1 else 0)%nat).
    { destruct (is_success o).
      - destruct He as (rows0 & name & u & E0 & _ & Hc).
        rewrite E in E0. injection E0 as <-. rewrite Hc. simpl.
        eexists; split; [reflexivity|]. rewrite length_app. reflexivity.
      - rewrite He. exists rows. split; [assumption|lia]. }
    destruct Hw1 as (rows' & E' & Hlen).
    destruct (IH w1 rows' E') as (rows1 & E1 & Hlen1).
    destruct (run_submits t w1) as [os w2]. simpl in *.
    exists rows1. split; [assumption|].
    unfold successes in *. simpl. destruct (is_success o); simpl; lia.
Qed.

(** C8.  From a table of [rows], after any requests to [/api/submit], served
    under any failures, an authorized [/api/stats] on a working database
    answers 200 with [total_submissions] equal to the number of rows in the
    table, which is the number of rows before plus the number of requests
    answered [{"success": true}]: starting from the empty table the count is
    the number of successful submissions, and a request answered otherwise,
    [already_submitted] included, adds nothing. *)
Theorem stats_counts_submissions (reqs : list request) (req : request)
        (rows : list row) (w : world) :
  feedback (committed w) = Some rows ->
  secret_mismatch (x_api_secret req) = false ->
  exists rows1 w2,
    feedback (committed (snd (run_submits reqs w))) = Some rows1 /\
    List.length rows1 =
      (List.length rows + successes (fst (run_submits reqs w)))%nat /\
    stats req (set_faults [] (snd (run_submits reqs w))) =
      (Return (JObj [("total_submissions",
                      JInt (Z.of_nat (List.length rows1)))], 200), w2) /\
    committed w2 = committed (snd (run_submits reqs w)).
Proof.
  intros E Hs. destruct (run_submits_count reqs w rows E) as (rows1 & E1 & Hlen).
  exists rows1. eexists. split; [exact E1|]. split; [exact Hlen|]. split.
  - apply stats_run; [assumption|reflexivity|].
    destruct (snd (run_submits reqs w)); exact E1.
  - destruct (snd (run_submits reqs w)); reflexivity.
Qed.

(** ** Start-up *)

Lemma init_db_run (w : world) :
  init_db (set_faults [] w) =
  (Return tt,
   mkWorld (mkDb (Some (match feedback (committed w) with
                        | Some rows => rows
                        | None => []
                        end)) true)
           (match feedback (committed w) with
            | Some _ => id_seq w
            | None => 1
            end)
           None
           (calls w ++ [Connect DATABASE_URL; Execute CreateTableFeedback;
                        Execute CreateIndexUserId; Commit; Close])
           (log w ++ [LogInfo InitOk]) []).
Proof.
  destruct w as [[[rows|] ix] sq se cs lg fs];
    cbv beta iota delta
        [init_db get_db connect commit rollback close execute try_finally
         try_except bind ret raise record_call logger set_session modify
         next_fault set_faults run_sql committed id_seq session calls log
         faults feedback idx_userId];
    rewrite <- !app_assoc; reflexivity.
Qed.

(** C9.  [init_db] on a working database creates the table and the index
    when they are absent and keeps the rows of a table that is there; a
    second run changes nothing in the committed database.  [startup]
    returns normally in every world: when [init_db] raises, the exception
    is logged as an error and dropped.  After it, whatever happened,
    [health] answers 200 and [stats] and [list_submissions] answer every
    request. *)
Theorem startup_idempotent_and_safe (w : world) (req : request) :
  committed (snd (init_db (set_faults [] w))) =
    mkDb (Some (match feedback (committed w) with
                | Some rows => rows
                | None => []
                end)) true /\
  committed (snd (init_db (set_faults [] (snd (init_db (set_faults [] w)))))) =
    committed (snd (init_db (set_faults [] w))) /\
  match init_db w with
  | (Return _, w1) => startup w = (Return tt, w1)
  | (Raise e, w1) =>
      startup w =
      (Return tt,
       mkWorld (committed w1) (id_seq w1) (session w1) (calls w1)
               (log w1 ++ [LogError (InitFailed e)]) (faults w1))
  end /\
  fst (health (snd (startup w))) = Return (JObj [("status", JStr "healthy")], 200) /\
  (exists r, fst (stats req (snd (startup w))) = Return r) /\
  (exists r, fst (list_submissions req (snd (startup w))) = Return r).
Proof.
  repeat split.
  - rewrite init_db_run. reflexivity.
  - rewrite !init_db_run. simpl. reflexivity.
  - unfold startup, try_except. destruct (init_db w) as [[[]|e] w1]; reflexivity.
  - apply total_stats.
  - apply total_list_submissions.
Qed.

(** ** The secret check, completely *)

(** X1.  The check shared by the three handlers rejects a request exactly
    when a secret is configured, is not the empty string, and differs from
    the header (an absent header differs from every secret). *)
Theorem secret_mismatch_iff (h : option string) :
  secret_mismatch h = true <->
  exists s, API_SECRET = Some s /\ s <> "" /\ h <> Some s.
Proof.
  unfold secret_mismatch. split.
  - intros H. apply andb_true_iff in H. destruct H as [Ht Hd].
    destruct API_SECRET as [s|]; [|discriminate]. exists s.
    simpl in Ht. apply negb_true_iff in Ht, Hd.
    split; [reflexivity|]. split.
    + now apply String.eqb_neq.
    + intros ->. simpl in Hd. rewrite String.eqb_refl in Hd. discriminate.
  - intros (s & Hs & Hne & Hh). now apply (secret_mismatch_true s).
Qed.

(** ** Requests that validation rejects *)

Lemma insert_path_status (user_id username_v : json) :
  yields from_insert
    (try_except
       (get_db
          (execute (InsertFeedback username_v user_id) ;;
           logger (LogInfo (NewSubmission user_id username_v)) ;;
           ret (JObj [("success", JBool true)], 200)))
       (fun e =>
          match e with
          | IntegrityError _ =>
              logger (LogInfo (DuplicateIgnored user_id)) ;;
              ret (reason false "already_submitted", 200)
          | _ =>
              logger (LogError (DatabaseError e)) ;;
              ret (reason false "internal_error", 500)
          end)).
Proof.
  unfold from_insert. apply yields_try_except.
  - apply yields_get_db. apply yields_bind; intros _.
    apply yields_bind; intros _. apply yields_ret; simpl; auto.
  - intros [c|k]; apply yields_bind; intros _; apply yields_ret; simpl; auto.
Qed.

(** X2.  Whenever [submit] answers 400 or 401, it made no driver call and
    changed neither the database, the sequence, the connection state nor the
    pending failures: a request that the checks reject never reaches the
    storage. *)
Theorem submit_rejection_touches_nothing
        (req : request) (w w' : world) (body : json) (st : Z) :
  submit req w = (Return (body, st), w') ->
  st = 400 \/ st = 401 ->
  committed w' = committed w /\ id_seq w' = id_seq w /\
  session w' = session w /\ calls w' = calls w /\ faults w' = faults w.
Proof.
  intros Hrun Hst. unfold submit in Hrun.
  destruct (secret_mismatch (x_api_secret req)).
  { injection Hrun as _ _ <-. repeat split. }
  destruct (negb (is_json req)).
  { injection Hrun as _ _ <-. repeat split. }
  destruct (json_body req) as [data|].
  2:{ injection Hrun as _ _ <-. repeat split. }
  unfold data_get in Hrun.
  destruct data as [| | | | | |l]; try discriminate Hrun.
  destruct (assoc "userId" l) as [user_id|];
    destruct (assoc "username" l) as [username_v|];
    unfold bind at 1 2, ret at 1 2 in Hrun; simpl in Hrun;
    rewrite ?orb_true_r in Hrun;
    try (injection Hrun as _ _ <-; repeat split).
  destruct (negb (truthy user_id) || negb (truthy username_v)).
  { injection Hrun as _ _ <-. repeat split. }
  pose proof (insert_path_status user_id username_v w) as Hy.
  rewrite Hrun in Hy. unfold from_insert in Hy. simpl in Hy. lia.
Qed.

(** ** The handlers that only read *)

Lemma stats_keeps (req : request) (w : world) :
  committed (snd (stats req w)) = committed w /\
  id_seq (snd (stats req w)) = id_seq w.
Proof.
  unfold stats. destruct (secret_mismatch (x_api_secret req)); [split; reflexivity|].
  destruct w as [cm sq se cs lg fs]. munfold; simpl. unfold run_sql.
  destruct fs as [|[k1|] fs]; simpl; auto;
    (destruct (feedback cm) as [rows|]; simpl; auto;
     destruct fs as [|[k2|] fs]; simpl; auto;
     destruct (feedback cm) as [rows'|]; simpl; auto;
     destruct fs as [|[k3|] fs]; simpl; auto).
Qed.

Lemma list_submissions_keeps (req : request) (w : world) :
  committed (snd (list_submissions req w)) = committed w /\
  id_seq (snd (list_submissions req w)) = id_seq w.
Proof.
  unfold list_submissions.
  destruct (secret_mismatch (x_api_secret req)); [split; reflexivity|].
  destruct w as [cm sq se cs lg fs]. munfold; simpl. unfold run_sql.
  destruct fs as [|[k1|] fs]; simpl; auto;
    (destruct (feedback cm) as [rows|]; simpl; auto;
     destruct fs as [|[k2|] fs]; simpl; auto;
     destruct (feedback cm) as [rows'|]; simpl; auto;
     destruct fs as [|[k3|] fs]; simpl; auto).
Qed.

(** X4.  [stats] and [list_submissions] only read: in every world, for
    every request and under every failure, the committed database and the
    sequence are the same after the handler as before. *)
Theorem read_handlers_change_nothing (req : request) (w : world) :
  committed (snd (stats req w)) = committed w /\
  id_seq (snd (stats req w)) = id_seq w /\
  committed (snd (list_submissions req w)) = committed w /\
  id_seq (snd (list_submissions req w)) = id_seq w.
Proof.
  destruct (stats_keeps req w) as [H1 H2].
  destruct (list_submissions_keeps req w) as [H3 H4]. auto.
Qed.

Ltac quiet_yes :=
  unfold quiet; simpl;
  intros ? Hq; repeat (destruct Hq as [Hq|Hq]; [discriminate Hq|]); exact Hq.

Ltac quiet_no :=
  let Hq := fresh "Hq" in
  unfold quiet; simpl; intros Hq; eapply Hq; eauto.

Ltac answer_leaf :=
  do 3 eexists; split; [reflexivity|]; simpl;
  first
    [ left; split; [reflexivity|];
      split; [eexists; split; reflexivity|];
      split; [quiet_yes|reflexivity]
    | right; split; [reflexivity|]; split; [reflexivity|];
      split; [eexists; reflexivity|];
      first [right; reflexivity | left; quiet_no] ].

(** X5.  The answers of an authorized [/api/stats] and [/api/list].  Each is
    200 with the count, or the records, of the table when none of the three
    driver calls ([connect], [execute], [commit]) fails and the table
    exists, and nothing is logged; otherwise it is
    [{"error": "internal_error"}] with status 500 and the exception is
    logged as one error entry. *)
Theorem read_handlers_answers (req : request) (w : world) :
  secret_mismatch (x_api_secret req) = false ->
  (exists b st w',
      stats req w = (Return (b, st), w') /\
      (st = 200 /\
       (exists rows, feedback (committed w) = Some rows /\
                     b = JObj [("total_submissions",
                                JInt (Z.of_nat (List.length rows)))]) /\
       quiet 3 w /\ log w' = log w
       \/
       st = 500 /\ b = fst error_response /\
       (exists e, log w' = log w ++ [LogError (StatsError e)]) /\
       (~ quiet 3 w \/ feedback (committed w) = None))) /\
  (exists b st w',
      list_submissions req w = (Return (b, st), w') /\
      (st = 200 /\
       (exists rows,
           feedback (committed w) = Some rows /\
           b = JObj [("submissions",
                      JArr (map JObj (map select_row
                                          (firstn 100 (order_by_id_desc rows)))));
                     ("count",
                      JInt (Z.of_nat (List.length
                                        (map select_row
                                             (firstn 100 (order_by_id_desc rows))))))]) /\
       quiet 3 w /\ log w' = log w
       \/
       st = 500 /\ b = fst error_response /\
       (exists e, log w' = log w ++ [LogError (ListError e)]) /\
       (~ quiet 3 w \/ feedback (committed w) = None))).
Proof.
  intros Hs. unfold stats, list_submissions. rewrite Hs.
  destruct w as [cm sq se cs lg fs]. munfold; simpl.
  unfold run_sql, fetchone, fetchall.
  split.
  - destruct fs as [|[k1|] fs]; simpl.
    + destruct (feedback cm) as [rows|]; simpl; answer_leaf.
    + answer_leaf.
    + destruct fs as [|[k2|] fs]; simpl.
      * destruct (feedback cm) as [rows|]; simpl; answer_leaf.
      * answer_leaf.
      * destruct (feedback cm) as [rows|]; simpl; [|answer_leaf].
        destruct fs as [|[k3|] fs]; simpl; answer_leaf.
  - destruct fs as [|[k1|] fs]; simpl.
    + destruct (feedback cm) as [rows|]; simpl; answer_leaf.
    + answer_leaf.
    + destruct fs as [|[k2|] fs]; simpl.
      * destruct (feedback cm) as [rows|]; simpl; answer_leaf.
      * answer_leaf.
      * destruct (feedback cm) as [rows|]; simpl; [|answer_leaf].
        destruct fs as [|[k3|] fs]; simpl; answer_leaf.
Qed.

(** ** Start-up under failures *)

Ltac mcbv :=
  cbv beta iota delta
      [init_db startup get_db connect commit rollback close execute
       try_finally try_except bind ret raise record_call logger set_session
       modify next_fault set_faults run_sql committed id_seq session calls
       log faults feedback idx_userId fst snd].

Lemma init_db_cases (w : world) :
  match init_db w with
  | (Return _, w') =>
      committed w' =
        mkDb (Some (match feedback (committed w) with
                    | Some rows => rows
                    | None => []
                    end)) true /\
      log w' = log w ++ [LogInfo InitOk]
  | (Raise e, w') => committed w' = committed w /\ log w' = log w
  end.
Proof.
  destruct w as [[fb ix] sq se cs lg fs].
  destruct fs as [|[k1|] fs];
    [| |destruct fs as [|[k2|] fs];
        [| |destruct fs as [|[k3|] fs];
            [| |destruct fs as [|[k4|] fs]]]];
    destruct fb as [rows|]; mcbv; split; reflexivity.
Qed.

(** X6.  [startup] is all or nothing.  It always returns; afterwards either
    the table (with the rows it had, or empty when it was created) and the
    index exist and one info entry was logged, or the committed database is
    exactly what it was, a table created before a later failure included,
    and one error entry was logged. *)
Theorem startup_all_or_nothing (w : world) :
  exists w',
    startup w = (Return tt, w') /\
    (committed w' =
       mkDb (Some (match feedback (committed w) with
                   | Some rows => rows
                   | None => []
                   end)) true /\
     log w' = log w ++ [LogInfo InitOk]
     \/
     committed w' = committed w /\
     exists e, log w' = log w ++ [LogError (InitFailed e)]).
Proof.
  pose proof (init_db_cases w) as H. unfold startup, try_except.
  destruct (init_db w) as [[[]|e] w1].
  - exists w1. split; [reflexivity|]. left. exact H.
  - eexists. split; [reflexivity|]. right. unfold logger, modify. simpl.
    destruct H as [Hc Hl]. split; [exact Hc|]. exists e. now rewrite Hl.
Qed.

(** ** The table only grows *)



(** ** The most recent records *)






(** ** Submitting twice *)


(** ** The driver calls of a request *)

Ltac no_call :=
  exists []; split; [simpl; now rewrite app_nil_r | left; reflexivity].

Ltac one_transaction :=
  eexists; split;
  [ simpl; rewrite <- ?app_assoc; simpl; reflexivity
  | right; unfold transaction_calls;
    first [ left; reflexivity
          | right; left; reflexivity
          | right; right; left; reflexivity
          | right; right; right; reflexivity ] ].

Ltac calls_leaf := first [no_call | one_transaction].

Lemma stats_calls (req : request) (w : world) :
  exists tr, calls (snd (stats req w)) = calls w ++ tr /\
             (tr = [] \/ transaction_calls SelectCount tr).
Proof.
  unfold stats. destruct (secret_mismatch (x_api_secret req)); [no_call|].
  destruct w as [cm sq se cs lg fs]. munfold; simpl. unfold run_sql.
  destruct fs as [|[k1|] fs]; simpl.
  - destruct (feedback cm) as [rows|]; simpl; calls_leaf.
  - calls_leaf.
  - destruct fs as [|[k2|] fs]; simpl.
    + destruct (feedback cm) as [rows|]; simpl; calls_leaf.
    + calls_leaf.
    + destruct (feedback cm) as [rows|]; simpl; [|calls_leaf].
      destruct fs as [|[k3|] fs]; simpl; calls_leaf.
Qed.

Lemma list_submissions_calls (req : request) (w : world) :
  exists tr, calls (snd (list_submissions req w)) = calls w ++ tr /\
             (tr = [] \/ transaction_calls SelectRecent tr).
Proof.
  unfold list_submissions.
  destruct (secret_mismatch (x_api_secret req)); [no_call|].
  destruct w as [cm sq se cs lg fs]. munfold; simpl. unfold run_sql.
  destruct fs as [|[k1|] fs]; simpl.
  - destruct (feedback cm) as [rows|]; simpl; calls_leaf.
  - calls_leaf.
  - destruct fs as [|[k2|] fs]; simpl.
    + destruct (feedback cm) as [rows|]; simpl; calls_leaf.
    + calls_leaf.
    + destruct (feedback cm) as [rows|]; simpl; [|calls_leaf].
      destruct fs as [|[k3|] fs]; simpl; calls_leaf.
Qed.

Ltac insert_calls_leaf :=
  eexists; split;
  [ simpl; rewrite <- ?app_assoc; simpl; reflexivity
  | right; unfold transaction_calls;
    first [ exists JNull, JNull; left; reflexivity
          | do 2 eexists; right; left; reflexivity
          | do 2 eexists; right; right; left; reflexivity
          | do 2 eexists; right; right; right; reflexivity ] ].

Lemma submit_calls (req : request) (w : world) :
  exists tr, calls (snd (submit req w)) = calls w ++ tr /\
             (tr = [] \/
              exists un uid, transaction_calls (InsertFeedback un uid) tr).
Proof.
  destruct w as [cm sq se cs lg fs]. unfold submit.
  destruct (secret_mismatch (x_api_secret req)); [no_call|].
  destruct (negb (is_json req)); [no_call|].
  destruct (json_body req) as [data|]; [|no_call].
  unfold data_get.
  destruct data as [| | | | | |l]; try no_call.
  destruct (assoc "userId" l) as [user_id|], (assoc "username" l) as [username_v|];
    unfold bind at 1 2, ret at 1 2; simpl; rewrite ?orb_true_r; try no_call.
  destruct (negb (truthy user_id) || negb (truthy username_v)); [no_call|].
  munfold; simpl. unfold run_sql.
  destruct fs as [|[k1|] fs]; simpl; [| insert_calls_leaf |].
  - destruct (to_text cv username_v) as [k|name]; [insert_calls_leaf|].
    destruct (to_bigint cv user_id) as [k|u]; [insert_calls_leaf|].
    destruct (in_bigint u); simpl; [|insert_calls_leaf].
    destruct (feedback cm) as [rows|]; [|insert_calls_leaf].
    destruct (has_id sq rows); [insert_calls_leaf|].
    destruct (has_userId u rows); simpl; insert_calls_leaf.
  - destruct fs as [|[k2|] fs]; simpl; [| insert_calls_leaf |].
    + destruct (to_text cv username_v) as [k|name]; [insert_calls_leaf|].
      destruct (to_bigint cv user_id) as [k|u]; [insert_calls_leaf|].
      destruct (in_bigint u); simpl; [|insert_calls_leaf].
      destruct (feedback cm) as [rows|]; [|insert_calls_leaf].
      destruct (has_id sq rows); [insert_calls_leaf|].
      destruct (has_userId u rows); simpl; insert_calls_leaf.
    + destruct (to_text cv username_v) as [k|name]; [insert_calls_leaf|].
      destruct (to_bigint cv user_id) as [k|u]; [insert_calls_leaf|].
      destruct (in_bigint u); simpl; [|insert_calls_leaf].
      destruct (feedback cm) as [rows|]; [|insert_calls_leaf].
      destruct (has_id sq rows); [insert_calls_leaf|].
      destruct (has_userId u rows); simpl; [insert_calls_leaf|].
      destruct fs as [|[k3|] fs]; simpl; insert_calls_leaf.
Qed.

(** X10.  The driver calls one request adds to the record, in every world
    and under every failure: none, or a failed [connect] alone, or one
    connection with exactly one statement, which is the handler's own (the
    insert for [submit], the count for [stats], the selection for
    [list_submissions]; never a schema statement), ended by [rollback] or
    [commit] and always closed. *)
Theorem handlers_use_one_transaction (req : request) (w : world) :
  (exists tr, calls (snd (submit req w)) = calls w ++ tr /\
              (tr = [] \/
               exists un uid, transaction_calls (InsertFeedback un uid) tr)) /\
  (exists tr, calls (snd (stats req w)) = calls w ++ tr /\
              (tr = [] \/ transaction_calls SelectCount tr)) /\
  (exists tr, calls (snd (list_submissions req w)) = calls w ++ tr /\
              (tr = [] \/ transaction_calls SelectRecent tr)).
Proof.
  split; [apply submit_calls|]. split; [apply stats_calls|].
  apply list_submissions_calls.
Qed.

(** ** The count and the list together *)

Lemma insert_desc_length (r : row) (l : list row) :
  List.length (insert_desc r l) = S (List.length l).
Proof.
  induction l as [|x t IH]; simpl; [reflexivity|].
  destruct (id x <=? id r); simpl; [reflexivity|]. now rewrite IH.
Qed.

Lemma order_by_id_desc_length (l : list row) :
  List.length (order_by_id_desc l) = List.length l.
Proof.
  induction l as [|x t IH]; simpl; [reflexivity|].
  now rewrite insert_desc_length, IH.
Qed.

(** X11.  On the same working database, for any table (the [id]s need not
    be distinct), an authorized [/api/stats] reports the size of the table
    and an authorized [/api/list] returns as many records as the smaller of
    100 and that size, and reports that number as [count]. *)
Theorem list_count_is_min_of_total (req : request) (rows : list row)
        (w : world) :
  secret_mismatch (x_api_secret req) = false ->
  faults w = [] ->
  feedback (committed w) = Some rows ->
  exists subs w1 w2,
    stats req w =
      (Return (JObj [("total_submissions",
                      JInt (Z.of_nat (List.length rows)))], 200), w1) /\
    list_submissions req w =
      (Return (JObj [("submissions", JArr subs);
                     ("count", JInt (Z.min 100 (Z.of_nat (List.length rows))))],
               200), w2) /\
    Z.of_nat (List.length subs) = Z.min 100 (Z.of_nat (List.length rows)).
Proof.
  intros Hs Hf E.
  assert (Hlen : Z.of_nat (List.length
                             (map select_row (firstn 100 (order_by_id_desc rows)))) =
                 Z.min 100 (Z.of_nat (List.length rows))).
  { rewrite length_map, length_firstn, order_by_id_desc_length.
    rewrite Nat2Z.inj_min. reflexivity. }
  do 3 eexists. split; [apply (stats_run req rows w Hs Hf E)|]. split.
  - rewrite (list_submissions_run req rows w Hs Hf E). rewrite Hlen. reflexivity.
  - rewrite length_map. exact Hlen.
Qed.

End App.

(** ** The empty secret *)

(** C10.  With [API_SECRET] set to the empty string, [submit], [stats] and
    [list_submissions] behave on every request and in every world as they do
    without a secret, and none of them answers 401: the status is 200, 400
    or 500. *)
Theorem empty_secret_disables_gate (cv : conversion) (url : option string)
        (req : request) (w : world) :
  submit cv url (Some "") req w = submit cv url None req w /\
  stats cv url (Some "") req w = stats cv url None req w /\
  list_submissions cv url (Some "") req w = list_submissions cv url None req w /\
  yields passed_gate (submit cv url (Some "") req) /\
  yields passed_gate (stats cv url (Some "") req) /\
  yields passed_gate (list_submissions cv url (Some "") req).
Proof.
  repeat split.
  - now apply submit_passed_gate.
  - now apply stats_passed_gate.
  - now apply list_passed_gate.
Qed.

(** C3 as stated fails for the empty secret: the header is absent, the
    configured secret is the empty string, and the three endpoints answer
    200. *)
Lemma secret_gate_empty_secret_counterexample :
  x_api_secret anonymous <> Some "" /\
  fst (stats typed_conversion demo_url (Some "") anonymous ready_world) =
    Return (JObj [("total_submissions", JInt 0)], 200) /\
  fst (list_submissions typed_conversion demo_url (Some "") anonymous ready_world) =
    Return (JObj [("submissions", JArr []); ("count", JInt 0)], 200) /\
  fst (submit typed_conversion demo_url (Some "")
              (mkRequest None true (Some alice) "203.0.113.7") ready_world) =
    Return success_response.
Proof. repeat split. discriminate. Qed.

Lemma secret_gate_rejects_witness :
  demo_secret = Some "s3cret" /\ "s3cret" <> "" /\
  x_api_secret anonymous <> Some "s3cret" /\
  submit typed_conversion demo_url demo_secret anonymous ready_world =
    (Return (reason false "unauthorized", 401),
     mkWorld (committed ready_world) (id_seq ready_world) (session ready_world)
             (calls ready_world)
             (log ready_world ++ [LogWarning (InvalidSecret (remote_addr anonymous))])
             (faults ready_world)) /\
  stats typed_conversion demo_url demo_secret anonymous ready_world =
    (Return (JObj [("error", JStr "unauthorized")], 401), ready_world) /\
  list_submissions typed_conversion demo_url demo_secret anonymous ready_world =
    (Return (JObj [("error", JStr "unauthorized")], 401), ready_world).
Proof.
  split; [reflexivity|]. split; [discriminate|]. split; [discriminate|].
  apply (secret_gate_rejects typed_conversion demo_url demo_secret "s3cret"
                             anonymous ready_world);
    [reflexivity | discriminate | discriminate].
Defined.

(** ** Bodies that are not objects *)

(** C5, where the code departs from it.  An authorized JSON request whose
    body is [null] or [[]] has no [userId]; [submit] does not answer
    [missing_required_fields]/400 but lets the [AttributeError] of
    [data.get] escape.  No driver call is made and the world is unchanged. *)
Theorem submit_non_object_body_raises (cv : conversion) (url : option string)
        (s ip : string) (w : world) :
  submit cv url (Some s) (mkRequest (Some s) true (Some JNull) ip) w =
    (Raise (Exc AttributeError), w) /\
  submit cv url (Some s) (mkRequest (Some s) true (Some (JArr [])) ip) w =
    (Raise (Exc AttributeError), w).
Proof.
  assert (Hs : secret_mismatch (Some s) (Some s) = false).
  { unfold secret_mismatch. simpl. rewrite String.eqb_refl. simpl.
    apply andb_false_r. }
  split; [apply submit_not_a_dict with (data := JNull)
        | apply submit_not_a_dict with (data := JArr [])]; simpl; auto.
Qed.

(** ** Labels of the listed records *)

(** C7, where the code departs from it.  The select list names [userId]
    unquoted, so the column's label is [userid]: every record of [/api/list]
    has the keys [id], [username] and [userid], and none has [userId]. *)
Theorem list_submissions_userid_label :
  (forall r : row,
      keys (JObj (select_row r)) = ["id"; "username"; "userid"] /\
      assoc "userId" (select_row r) = None) /\
  fst (list_submissions typed_conversion demo_url demo_secret (post JNull)
                        alice_world) =
    Return (JObj [("submissions",
                   JArr [JObj [("id", JInt 1); ("username", JStr "Alice");
                               ("userid", JInt 42)]]);
                  ("count", JInt 1)], 200).
Proof. split; [intros r; split; reflexivity | reflexivity]. Qed.

(** ** The scenario of the specification, as a run *)

Lemma ready_world_reachable :
  reachable typed_conversion demo_url demo_secret ready_world.
Proof.
  apply (reachable_step typed_conversion demo_url demo_secret
                        (empty_world 1 []) ready_world).
  - apply reachable_empty.
  - exact (step_startup typed_conversion demo_url demo_secret (empty_world 1 [])).
Defined.

Lemma alice_world_reachable :
  reachable typed_conversion demo_url demo_secret alice_world.
Proof.
  apply (reachable_step typed_conversion demo_url demo_secret
                        ready_world alice_world).
  - exact ready_world_reachable.
  - exact (step_submit typed_conversion demo_url demo_secret (post alice)
                       ready_world).
Defined.


Lemma bob_again_accepted :
  accepted demo_secret (post bob_again) (JInt 42) (JStr "Bob").
Proof.
  split; [reflexivity|]. split; [reflexivity|].
  exists [("userId", JInt 42); ("username", JStr "Bob")].
  repeat split.
Defined.

(** Alice submits, a second submission for her [userId] names Bob, then the
    statistics and the list are read. *)
Example scenario :
  let run h w := h typed_conversion demo_url demo_secret w in
  let (r1, w1) := run (fun cv u s => submit cv u s (post alice)) ready_world in
  let (r2, w2) := run (fun cv u s => submit cv u s (post bob_again)) w1 in
  let (r3, w3) := run (fun cv u s => stats cv u s (post JNull)) w2 in
  let (r4, w4) := run (fun cv u s => list_submissions cv u s (post JNull)) w3 in
  r1 = Return success_response /\
  r2 = Return already_submitted /\
  r3 = Return (JObj [("total_submissions", JInt 1)], 200) /\
  r4 = Return (JObj [("submissions",
                      JArr [JObj [("id", JInt 1); ("username", JStr "Alice");
                                  ("userid", JInt 42)]]);
                     ("count", JInt 1)], 200) /\
  feedback (committed w4) = Some [mkRow 1 "Alice" 42].
Proof. vm_compute. repeat split; reflexivity. Qed.



Lemma submit_error_mapping_witness :
  reachable typed_conversion demo_url demo_secret
            (set_faults [None; Some OperationalError] alice_world) /\
  accepted demo_secret (post bob_again) (JInt 42) (JStr "Bob") /\
  exists r w',
    submit typed_conversion demo_url demo_secret (post bob_again)
           (set_faults [None; Some OperationalError] alice_world) =
      (Return r, w') /\
    r = internal_error /\
    committed w' = committed alice_world.
Proof.
  assert (Hr : reachable typed_conversion demo_url demo_secret
                         (set_faults [None; Some OperationalError] alice_world)).
  { apply (reachable_step typed_conversion demo_url demo_secret alice_world).
    - exact alice_world_reachable.
    - apply step_faults. }
  split; [exact Hr|]. split; [exact bob_again_accepted|].
  destruct (submit_error_mapping typed_conversion demo_url demo_secret
              (post bob_again) (JInt 42) (JStr "Bob")
              (set_faults [None; Some OperationalError] alice_world)
              Hr bob_again_accepted)
    as (r & w' & Hrun & _ & _ & Hkeep & Hfault & _).
  exists r, w'. split; [exact Hrun|].
  assert (Hi : r = internal_error).
  { apply (Hfault OperationalError []). right. reflexivity. }
  split; [exact Hi|]. apply Hkeep. rewrite Hi. discriminate.
Defined.

Lemma stats_counts_submissions_witness :
  feedback (committed ready_world) = Some [] /\
  secret_mismatch demo_secret (x_api_secret (post JNull)) = false /\
  exists rows1 w2,
    feedback (committed (snd (run_submits typed_conversion demo_url demo_secret
                                          [post alice; post bob_again]
                                          ready_world))) = Some rows1 /\
    List.length rows1 =
      (List.length (@nil row) +
       successes (fst (run_submits typed_conversion demo_url demo_secret
                                   [post alice; post bob_again] ready_world)))%nat /\
    stats typed_conversion demo_url demo_secret (post JNull)
          (set_faults [] (snd (run_submits typed_conversion demo_url demo_secret
                                           [post alice; post bob_again]
                                           ready_world))) =
      (Return (JObj [("total_submissions",
                      JInt (Z.of_nat (List.length rows1)))], 200), w2) /\
    committed w2 =
      committed (snd (run_submits typed_conversion demo_url demo_secret
                                  [post alice; post bob_again] ready_world)).
Proof.
  split; [reflexivity|]. split; [reflexivity|].
  apply (stats_counts_submissions typed_conversion demo_url demo_secret
           [post alice; post bob_again] (post JNull) [] ready_world);
    reflexivity.
Defined.

(** ** Concrete runs of the further properties *)

Lemma submit_rejection_touches_nothing_witness :
  submit typed_conversion demo_url demo_secret anonymous ready_world =
    (Return (reason false "unauthorized", 401),
     snd (submit typed_conversion demo_url demo_secret anonymous ready_world)) /\
  (401 = 400 \/ 401 = 401) /\
  committed (snd (submit typed_conversion demo_url demo_secret anonymous
                         ready_world)) = committed ready_world /\
  id_seq (snd (submit typed_conversion demo_url demo_secret anonymous
                      ready_world)) = id_seq ready_world /\
  session (snd (submit typed_conversion demo_url demo_secret anonymous
                       ready_world)) = session ready_world /\
  calls (snd (submit typed_conversion demo_url demo_secret anonymous
                     ready_world)) = calls ready_world /\
  faults (snd (submit typed_conversion demo_url demo_secret anonymous
                      ready_world)) = faults ready_world.
Proof.
  split; [reflexivity|]. split; [right; reflexivity|].
  apply (submit_rejection_touches_nothing
           typed_conversion demo_url demo_secret anonymous ready_world
           (snd (submit typed_conversion demo_url demo_secret anonymous
                        ready_world))
           (reason false "unauthorized") 401);
    [reflexivity | right; reflexivity].
Defined.

Lemma submit_missing_fields_witness :
  secret_mismatch demo_secret
    (x_api_secret (post (JObj [("userId", JInt 0); ("username", JStr "Alice")])))
    = false /\
  (truthy (field [("userId", JInt 0); ("username", JStr "Alice")] "userId") = false \/
   truthy (field [("userId", JInt 0); ("username", JStr "Alice")] "username") = false) /\
  submit typed_conversion demo_url demo_secret
         (post (JObj [("userId", JInt 0); ("username", JStr "Alice")]))
         ready_world =
    (Return missing_required_fields, ready_world).
Proof.
  split; [reflexivity|]. split; [left; reflexivity|].
  apply (submit_missing_fields
           typed_conversion demo_url demo_secret
           (post (JObj [("userId", JInt 0); ("username", JStr "Alice")]))
           [("userId", JInt 0); ("username", JStr "Alice")] ready_world);
    [reflexivity | reflexivity | reflexivity | left; reflexivity].
Defined.

Lemma read_handlers_answers_witness :
  secret_mismatch demo_secret (x_api_secret (post JNull)) = false /\
  (exists b st w',
      stats typed_conversion demo_url demo_secret (post JNull)
            (set_faults [None; Some OperationalError] alice_world) =
        (Return (b, st), w') /\
      (st = 200 \/ st = 500)) /\
  (exists b st w',
      list_submissions typed_conversion demo_url demo_secret (post JNull)
                       (set_faults [None; Some OperationalError] alice_world) =
        (Return (b, st), w') /\
      (st = 200 \/ st = 500)).
Proof.
  split; [reflexivity|].
  destruct (read_handlers_answers
              typed_conversion demo_url demo_secret (post JNull)
              (set_faults [None; Some OperationalError] alice_world) eq_refl)
    as [(b1 & st1 & w1 & Hrun1 & Hc1) (b2 & st2 & w2 & Hrun2 & Hc2)].
  split.
  - exists b1, st1, w1. split; [exact Hrun1|].
    destruct Hc1 as [[H _]|[H _]]; auto.
  - exists b2, st2, w2. split; [exact Hrun2|].
    destruct Hc2 as [[H _]|[H _]]; auto.
Defined.




Lemma list_count_is_min_of_total_witness :
  secret_mismatch demo_secret (x_api_secret (post JNull)) = false /\
  faults alice_world = [] /\
  feedback (committed alice_world) = Some [mkRow 1 "Alice" 42] /\
  exists subs w1 w2,
    stats typed_conversion demo_url demo_secret (post JNull) alice_world =
      (Return (JObj [("total_submissions",
                      JInt (Z.of_nat (List.length [mkRow 1 "Alice" 42])))],
               200), w1) /\
    list_submissions typed_conversion demo_url demo_secret (post JNull)
                     alice_world =
      (Return (JObj [("submissions", JArr subs);
                     ("count",
                      JInt (Z.min 100
                                  (Z.of_nat (List.length [mkRow 1 "Alice" 42]))))],
               200), w2) /\
    Z.of_nat (List.length subs) =
      Z.min 100 (Z.of_nat (List.length [mkRow 1 "Alice" 42])).
Proof.
  split; [reflexivity|]. split; [reflexivity|]. split; [reflexivity|].
  apply (list_count_is_min_of_total
           typed_conversion demo_url demo_secret (post JNull)
           [mkRow 1 "Alice" 42] alice_world);
    reflexivity.
Defined.

